(** * Job tracking of the CrewAI API service (src/api_server.py)

    Shallow embedding of the job registry ([jobs], a module-level dict),
    the background runner [run_crew_job] and the HTTP handlers that read or
    write the registry.

    Scheduling: every handler and the runner are [async def] functions
    without any [await] in their bodies ([crew.kickoff] is a blocking call),
    so on the single event loop each of them runs to completion without
    interleaving with another.  A handler or a runner invocation is therefore
    one atomic step of the server, and the reachable states are the states
    between such steps. *)

From Stdlib Require Import String List Bool ZArith Lia.
Import ListNotations.
Open Scope string_scope.

(** ** Data model *)

(** The four values the code stores in [jobs[job_id]["status"]]. *)
Inductive job_state := Pending | Running | Completed | Failed.

Definition status_str (s : job_state) : string :=
  match s with
  | Pending => "pending"
  | Running => "running"
  | Completed => "completed"
  | Failed => "failed"
  end.

(** The per-job dict built in [run_crew]; timestamps are the strings
    returned by [datetime.now().isoformat()]. *)
Record job := mkJob {
  job_id : string;
  status : job_state;
  created_at : string;
  completed_at : option string;
  result : option string;
  error : option string
}.

Definition set_status (s : job_state) (j : job) : job :=
  mkJob (job_id j) s (created_at j) (completed_at j) (result j) (error j).
Definition set_result (r : string) (j : job) : job :=
  mkJob (job_id j) (status j) (created_at j) (completed_at j) (Some r) (error j).
Definition set_error (e : string) (j : job) : job :=
  mkJob (job_id j) (status j) (created_at j) (completed_at j) (result j) (Some e).
Definition set_completed_at (t : string) (j : job) : job :=
  mkJob (job_id j) (status j) (created_at j) (Some t) (result j) (error j).

(** A Python dict with string keys, as an association list in insertion
    order. *)
Definition dict (V : Type) := list (string * V).

Fixpoint lookup {V} (d : dict V) (k : string) : option V :=
  match d with
  | [] => None
  | (k', v) :: d' => if String.eqb k k' then Some v else lookup d' k
  end.

(** In-place mutation of the value stored under [k]. *)
Fixpoint update {V} (k : string) (f : V -> V) (d : dict V) : dict V :=
  match d with
  | [] => []
  | (k', v) :: d' =>
      if String.eqb k k' then (k', f v) :: update k f d' else (k', v) :: update k f d'
  end.

(** [d[k] = v]: replaces the value in place, or appends a new key. *)
Definition dict_set {V} (k : string) (v : V) (d : dict V) : dict V :=
  match lookup d k with
  | Some _ => update k (fun _ => v) d
  | None => app d [(k, v)]
  end.

(** [del d[k]] (the caller has checked [k in d]). *)
Definition dict_del {V} (k : string) (d : dict V) : dict V :=
  filter (fun kv => negb (String.eqb k (fst kv))) d.

(** [list(d.values())]. *)
Definition dict_values {V} (d : dict V) : list V := map snd d.

(** Python exceptions that occur in the modelled code. *)
Inductive exn :=
| KeyError (key : string)
| ImportError (msg : string)
| RuntimeError (msg : string)   (* any exception raised by the crew library *)
| HTTPException (status_code : Z) (detail : string).

(** [str(e)]. *)
Definition str_exn (e : exn) : string :=
  match e with
  | KeyError k => "'" ++ k ++ "'"
  | ImportError m => m
  | RuntimeError m => m
  | HTTPException c d => d
  end.

(** f-string rendering of an [Optional[str]]. *)
Definition fmt_opt (o : option string) : string :=
  match o with Some s => s | None => "None" end.

(** The [inputs] mapping of a [CrewInput]. *)
Definition inputs := list (string * string).

(** Observable effects: writes of a job's status and invocations of the
    crew's [kickoff] entry point. *)
Inductive event :=
| EvStatus (id : string) (s : job_state)
| EvKickoff (inp : inputs).

(** The server state: the [jobs] dict, the wall clock read by
    [datetime.now()], the background tasks scheduled and not yet run, the
    identifiers [uuid.uuid4()] has produced so far, and the event trace. *)
Record world := mkWorld {
  jobs : dict job;
  clock : string;
  tasks : list (string * inputs);
  used : list string;
  trace : list event
}.

Definition with_jobs (d : dict job) (w : world) : world :=
  mkWorld d (clock w) (tasks w) (used w) (trace w).
Definition with_clock (t : string) (w : world) : world :=
  mkWorld (jobs w) t (tasks w) (used w) (trace w).
Definition with_tasks (l : list (string * inputs)) (w : world) : world :=
  mkWorld (jobs w) (clock w) l (used w) (trace w).
Definition log (ev : event) (w : world) : world :=
  mkWorld (jobs w) (clock w) (tasks w) (used w) (app (trace w) [ev]).

(** ** A state and exception monad for Python statements *)

Definition M (A : Type) := world -> (A + exn) * world.

Definition ret {A} (a : A) : M A := fun w => (inl a, w).
Definition raise {A} (e : exn) : M A := fun w => (inr e, w).
Definition bind {A B} (m : M A) (k : A -> M B) : M B :=
  fun w => match m w with
           | (inl a, w') => k a w'
           | (inr e, w') => (inr e, w')
           end.
(** [try: body except Exception as e: handler(e)]. *)
Definition try_except {A} (body : M A) (handler : exn -> M A) : M A :=
  fun w => match body w with
           | (inl a, w') => (inl a, w')
           | (inr e, w') => handler e w'
           end.

Declare Scope py_scope.
Delimit Scope py_scope with py.
Notation "x <- m ;; k" := (bind m (fun x => k))
  (at level 61, m at next level, right associativity) : py_scope.
Notation "m ;;; k" := (bind m (fun _ => k))
  (at level 61, right associativity) : py_scope.
Open Scope py_scope.

(** [datetime.now().isoformat()]. *)
Definition now : M string := fun w => (inl (clock w), w).

(** [jobs[job_id][field] = v], through [f]; raises [KeyError] when the job
    is not in the dict. *)
Definition write_job (job_id : string) (f : job -> job) : M unit :=
  fun w => match lookup (jobs w) job_id with
           | None => (inr (KeyError job_id), w)
           | Some _ => (inl tt, with_jobs (update job_id f (jobs w)) w)
           end.

(** [jobs[job_id]["status"] = status_str s]. *)
Definition write_status (job_id : string) (s : job_state) : M unit :=
  write_job job_id (set_status s) ;;; (fun w => (inl tt, log (EvStatus job_id s) w)).

(** [job_id in jobs]. *)
Definition contains (job_id : string) : M bool :=
  fun w => (inl (match lookup (jobs w) job_id with Some _ => true | None => false end), w).

(** [jobs[job_id]] as an expression. *)
Definition get_item (job_id : string) : M job :=
  fun w => match lookup (jobs w) job_id with
           | Some j => (inl j, w)
           | None => (inr (KeyError job_id), w)
           end.

(** [jobs[job_id] = v]. *)
Definition set_item (job_id : string) (v : job) : M unit :=
  fun w => (inl tt, with_jobs (dict_set job_id v (jobs w)) w).

(** [del jobs[job_id]]. *)
Definition del_item (job_id : string) : M unit :=
  fun w => match lookup (jobs w) job_id with
           | Some _ => (inl tt, with_jobs (dict_del job_id (jobs w)) w)
           | None => (inr (KeyError job_id), w)
           end.

(** [str(uuid.uuid4())]: the random token is supplied by the environment
    and recorded as used. *)
Definition uuid4 (token : string) : M string :=
  fun w => (inl token, mkWorld (jobs w) (clock w) (tasks w) (token :: used w) (trace w)).

(** [background_tasks.add_task(run_crew_job, job_id, inputs)]. *)
Definition add_task (job_id : string) (inp : inputs) : M unit :=
  fun w => (inl tt, with_tasks (app (tasks w) [(job_id, inp)]) w).

(** The HTTP status of a handler outcome: 200 on return, the code of an
    [HTTPException], and 500 for any other uncaught exception. *)
Definition http_code {A} (r : A + exn) : Z :=
  match r with
  | inl _ => 200
  | inr (HTTPException c _) => c
  | inr _ => 500
  end.

(** Bodies of the JSON responses. *)
Record result_body := mkResultBody {
  rb_job_id : string;
  rb_status : string;
  rb_result : option string;
  rb_completed_at : option string
}.

Record health_body := mkHealthBody {
  h_status : string;
  h_timestamp : string;
  crew_loaded : bool;
  h_crew_class : option string;
  h_error : option string
}.

Record sync_body := mkSyncBody {
  sy_status : string;
  sy_result : string;
  sy_timestamp : string
}.

(** ** Handlers that do not depend on the crew *)

(** [run_crew] (POST /crew/run). *)
Definition run_crew (token : string) (inp : inputs) : M (string * string) :=
  job_id <- uuid4 token ;;
  t <- now ;;
  set_item job_id (mkJob job_id Pending t None None None) ;;;
  add_task job_id inp ;;;
  ret (job_id, "started").

(** [get_job_status] (GET /crew/status/{job_id}). *)
Definition get_job_status (job_id : string) : M job :=
  b <- contains job_id ;;
  if negb b then raise (HTTPException 404 "Job not found")
  else get_item job_id.

(** [get_job_result] (GET /crew/result/{job_id}). *)
Definition get_job_result (job_id : string) : M result_body :=
  b <- contains job_id ;;
  if negb b then raise (HTTPException 404 "Job not found")
  else
    job <- get_item job_id ;;
    if String.eqb (status_str (status job)) "pending"
       || String.eqb (status_str (status job)) "running"
    then raise (HTTPException 202 "Job still running")
    else if String.eqb (status_str (status job)) "failed"
    then raise (HTTPException 500 ("Job failed: " ++ fmt_opt (error job)))
    else ret (mkResultBody job_id (status_str (status job)) (result job) (completed_at job)).

(** [list_jobs] (GET /crew/jobs). *)
Definition list_jobs : M (list job) :=
  fun w => (inl (dict_values (jobs w)), w).

(** [delete_job] (DELETE /crew/jobs/{job_id}). *)
Definition delete_job (job_id : string) : M string :=
  b <- contains job_id ;;
  if negb b then raise (HTTPException 404 "Job not found")
  else del_item job_id ;;; ret "Job deleted successfully".

(** ** Handlers and runner that call the crew *)

Section Crew.

(** The object returned by [crew.kickoff] and its [str]. *)
Variable R : Type.
Variable str_R : R -> string.

(** The external collaborator: the outcome of importing
    [marketing_posts.crew.MarketingPostsCrew] (its [__name__], or the text
    of the import failure), of instantiating it, of calling its [crew()]
    method, and of [kickoff], which from the clock at the call gives the
    clock at its return and the returned object or the exception. *)
Record provider := mkProvider {
  import_crew : string + string;
  instantiate : unit + exn;
  build_crew : unit + exn;
  kickoff : inputs -> string -> string * (R + exn)
}.

Variable p : provider.

(** [load_crew_module] (= [get_crew_class]). *)
Definition load_crew_module : M string :=
  try_except
    (match import_crew p with
     | inl cls => ret cls
     | inr msg => raise (RuntimeError msg)
     end)
    (fun e => raise (ImportError ("Could not load CrewAI crew module: " ++ str_exn e))).

Definition get_crew_class : M string := load_crew_module.

(** [crew_class()]. *)
Definition call_crew_class : M unit := fun w => (instantiate p, w).

(** [crew_instance.crew()]. *)
Definition call_crew : M unit := fun w => (build_crew p, w).

(** [crew.kickoff(inputs=inputs)]. *)
Definition call_kickoff (inp : inputs) : M R :=
  fun w => let '(t, o) := kickoff p inp (clock w) in
           (o, log (EvKickoff inp) (with_clock t w)).

(** [run_crew_job], the background runner. *)
Definition run_crew_job (job_id : string) (inp : inputs) : M unit :=
  try_except
    (write_status job_id Running ;;;
     crew_class <- get_crew_class ;;
     call_crew_class ;;;
     call_crew ;;;
     res <- call_kickoff inp ;;
     write_status job_id Completed ;;;
     write_job job_id (set_result (str_R res)) ;;;
     t <- now ;;
     write_job job_id (set_completed_at t))
    (fun e =>
     write_status job_id Failed ;;;
     write_job job_id (set_error (str_exn e)) ;;;
     t <- now ;;
     write_job job_id (set_completed_at t)).

(** [health_check] (GET /health). *)
Definition health_check : M health_body :=
  try_except
    (crew_class <- get_crew_class ;;
     t <- now ;;
     ret (mkHealthBody "healthy" t true (Some crew_class) None))
    (fun e =>
     t <- now ;;
     ret (mkHealthBody "unhealthy" t false None (Some (str_exn e)))).

(** [run_crew_sync] (POST /crew/run-sync). *)
Definition run_crew_sync (inp : inputs) : M sync_body :=
  try_except
    (crew_class <- get_crew_class ;;
     call_crew_class ;;;
     call_crew ;;;
     res <- call_kickoff inp ;;
     t <- now ;;
     ret (mkSyncBody "completed" (str_R res) t))
    (fun e => raise (HTTPException 500 ("Crew execution failed: " ++ str_exn e))).

(** The attributes [crew_info] reads off the crew object: [crew.agents]
    (absent, or a list of agents with [role] and [goal]), [crew.tasks]
    (absent, or a list) and [str(crew.process)] (absent, or its text). *)
Record agent := mkAgent { role : string; goal : string }.

Record crew_obj := mkCrewObj {
  c_agents : option (list agent);
  c_tasks : option (list string);
  c_process : option string
}.

(** The two shapes of the [crew_info] response. *)
Inductive info_body :=
| InfoOk (crew_class : string) (agents : list (string * string))
         (tasks_count : nat) (process : string)   (* "available": True *)
| InfoErr (err : string).                          (* "available": False *)

Definition available (b : info_body) : bool :=
  match b with InfoOk _ _ _ _ => true | InfoErr _ => false end.

(** [crew_info] (GET /crew/info); [c] holds the attributes of the object
    [crew_instance.crew()] returns. *)
Definition crew_info (c : crew_obj) : M info_body :=
  try_except
    (crew_class <- get_crew_class ;;
     call_crew_class ;;;
     call_crew ;;;
     let agents_info :=
       match c_agents c with
       | Some ((_ :: _) as l) => map (fun a => (role a, goal a)) l
       | _ => []
       end in
     let tasks_count :=
       match c_tasks c with
       | Some ((_ :: _) as l) => length l
       | _ => 0
       end in
     ret (InfoOk crew_class agents_info tasks_count
                 (match c_process c with Some s => s | None => "unknown" end)))
    (fun e => ret (InfoErr (str_exn e))).

End Crew.

Arguments mkProvider {R}.
Arguments import_crew {R}.
Arguments instantiate {R}.
Arguments build_crew {R}.
Arguments kickoff {R}.

(** ** The server as a transition system *)

Section Server.

Variable R : Type.
Variable str_R : R -> string.

(** One atomic step: a handler call or one run of a scheduled background
    task (removed from the pending tasks), or the clock moving on. *)
Inductive step : world -> world -> Prop :=
| step_submit w token inp :
    ~ In token (used w) -> step w (snd (run_crew token inp w))
| step_runner w (p : provider R) l1 id inp l2 :
    tasks w = app l1 ((id, inp) :: l2) ->
    step w (snd (run_crew_job R str_R p id inp (with_tasks (app l1 l2) w)))
| step_status w id : step w (snd (get_job_status id w))
| step_result w id : step w (snd (get_job_result id w))
| step_list w : step w (snd (list_jobs w))
| step_delete w id : step w (snd (delete_job id w))
| step_health w (p : provider R) : step w (snd (health_check R p w))
| step_sync w (p : provider R) inp : step w (snd (run_crew_sync R str_R p inp w))
| step_tick w t : step w (with_clock t w).

Inductive reachable : world -> Prop :=
| reach_init t : reachable (mkWorld [] t [] [] [])
| reach_step w w' : reachable w -> step w w' -> reachable w'.

End Server.

(** ** Dictionary lemmas *)

Section DictFacts.

Context {V : Type}.

Lemma lookup_update_same (k : string) (f : V -> V) (d : dict V) :
  lookup (update k f d) k = option_map f (lookup d k).
Proof.
  induction d as [|[k' v] d IH]; simpl; [reflexivity|].
  destruct (String.eqb k k') eqn:E; simpl; rewrite E; auto.
Qed.

Lemma lookup_update_other (k k' : string) (f : V -> V) (d : dict V) :
  k' <> k -> lookup (update k f d) k' = lookup d k'.
Proof.
  intros Hne. induction d as [|[k0 v] d IH]; simpl; [reflexivity|].
  destruct (String.eqb k k0) eqn:E; simpl.
  - apply String.eqb_eq in E; subst k0.
    destruct (String.eqb k' k) eqn:E'; [apply String.eqb_eq in E'; congruence|exact IH].
  - destruct (String.eqb k' k0); [reflexivity|exact IH].
Qed.

Lemma lookup_app (d1 d2 : dict V) (k : string) :
  lookup (app d1 d2) k =
  match lookup d1 k with Some v => Some v | None => lookup d2 k end.
Proof.
  induction d1 as [|[k' v] d1 IH]; simpl; [reflexivity|].
  destruct (String.eqb k k'); [reflexivity|exact IH].
Qed.

Lemma lookup_dict_set (k k' : string) (v : V) (d : dict V) :
  lookup (dict_set k v d) k' = if String.eqb k' k then Some v else lookup d k'.
Proof.
  unfold dict_set. destruct (String.eqb k' k) eqn:E.
  - apply String.eqb_eq in E; subst k'.
    destruct (lookup d k) eqn:L.
    + rewrite lookup_update_same, L. reflexivity.
    + rewrite lookup_app, L. simpl. rewrite String.eqb_refl. reflexivity.
  - assert (k' <> k) by (intro; subst; rewrite String.eqb_refl in E; discriminate).
    destruct (lookup d k) eqn:L.
    + apply lookup_update_other; assumption.
    + rewrite lookup_app. destruct (lookup d k'); simpl; [reflexivity|].
      rewrite E. reflexivity.
Qed.

Lemma lookup_dict_del (k k' : string) (d : dict V) :
  lookup (dict_del k d) k' = if String.eqb k' k then None else lookup d k'.
Proof.
  unfold dict_del. induction d as [|[k0 v] d IH]; simpl.
  - destruct (String.eqb k' k); reflexivity.
  - destruct (String.eqb k k0) eqn:E; simpl.
    + apply String.eqb_eq in E; subst k0. rewrite IH.
      destruct (String.eqb k' k); reflexivity.
    + rewrite IH. destruct (String.eqb k' k0) eqn:E0; [|reflexivity].
      apply String.eqb_eq in E0; subst k0.
      destruct (String.eqb k' k) eqn:E1; [|reflexivity].
      apply String.eqb_eq in E1; subst k'. rewrite String.eqb_refl in E. discriminate.
Qed.

End DictFacts.

(** ** The runner on a job that is in the registry *)

(** Outcome of the loading part of the runner: [get_crew_class()],
    [crew_class()] and [crew_instance.crew()]. *)
Definition crew_load {R} (p : provider R) : unit + exn :=
  match import_crew p with
  | inr msg => inr (ImportError ("Could not load CrewAI crew module: " ++ msg))
  | inl _ => match instantiate p with
             | inr e => inr e
             | inl _ => build_crew p
             end
  end.

Definition completed_record (j : job) (r t : string) : job :=
  mkJob (job_id j) Completed (created_at j) (Some t) (Some r) (error j).

Definition failed_record (j : job) (e t : string) : job :=
  mkJob (job_id j) Failed (created_at j) (Some t) (result j) (Some e).

Ltac unfold_py :=
  cbv beta iota zeta delta [run_crew_job crew_load try_except bind write_status
    write_job get_crew_class load_crew_module call_crew_class call_crew
    call_kickoff now ret raise log with_jobs with_clock jobs clock tasks used
    trace option_map].

Ltac run_simpl H :=
  repeat (unfold_py; rewrite ?lookup_update_same, ?H; unfold_py).

Lemma run_crew_job_present {R} (str_R : R -> string) (p : provider R)
    (id : string) (inp : inputs) (w : world) (j : job) :
  lookup (jobs w) id = Some j ->
  exists w',
    run_crew_job R str_R p id inp w = (inl tt, w') /\
    tasks w' = tasks w /\ used w' = used w /\
    (forall k, k <> id -> lookup (jobs w') k = lookup (jobs w) k) /\
    match crew_load p with
    | inr e =>
        clock w' = clock w /\
        trace w' = app (trace w) [EvStatus id Running; EvStatus id Failed] /\
        lookup (jobs w') id = Some (failed_record j (str_exn e) (clock w))
    | inl _ =>
        let '(t, o) := kickoff p inp (clock w) in
        clock w' = t /\
        match o with
        | inl r =>
            trace w' = app (trace w) [EvStatus id Running; EvKickoff inp; EvStatus id Completed] /\
            lookup (jobs w') id = Some (completed_record j (str_R r) t)
        | inr e =>
            trace w' = app (trace w) [EvStatus id Running; EvKickoff inp; EvStatus id Failed] /\
            lookup (jobs w') id = Some (failed_record j (str_exn e) t)
        end
    end.
Proof.
  intros H. destruct w as [d c tk u tr]; simpl in H.
  unfold_py. rewrite H.
  destruct (import_crew p) as [cls|msg];
    [destruct (instantiate p) as [[]|e];
      [destruct (build_crew p) as [[]|e];
        [destruct (kickoff p inp c) as [t [r|e]]|]|]|];
    run_simpl H;
    (eexists; repeat split; cbn -[lookup update];
     first
       [ reflexivity
       | intros k Hk; rewrite ?lookup_update_other by exact Hk; reflexivity
       | rewrite <- ?app_assoc; reflexivity
       | rewrite ?lookup_update_same, H; reflexivity ]).
Qed.

(** The runner on an identifier that is no longer in the registry: the
    first write raises [KeyError], the handler's first write raises it
    again, and the exception leaves the runner with the state unchanged. *)
Lemma run_crew_job_absent {R} (str_R : R -> string) (p : provider R)
    (id : string) (inp : inputs) (w : world) :
  lookup (jobs w) id = None ->
  run_crew_job R str_R p id inp w = (inr (KeyError id), w).
Proof.
  intros H. destruct w as [d c tk u tr]; simpl in H.
  run_simpl H. reflexivity.
Qed.

(** ** Effect of the other handlers on the state *)

Lemma run_crew_eq (token : string) (inp : inputs) (w : world) :
  run_crew token inp w =
  (inl (token, "started"),
   mkWorld (dict_set token (mkJob token Pending (clock w) None None None) (jobs w))
           (clock w) (app (tasks w) [(token, inp)]) (token :: used w) (trace w)).
Proof. destruct w; reflexivity. Qed.

Lemma delete_job_frame (id : string) (w : world) :
  tasks (snd (delete_job id w)) = tasks w /\ used (snd (delete_job id w)) = used w /\
  (forall k, lookup (jobs (snd (delete_job id w))) k =
             if String.eqb k id then None else lookup (jobs w) k).
Proof.
  destruct w as [d c tk u tr].
  cbv beta iota zeta delta [delete_job contains del_item bind ret raise
    with_jobs jobs tasks used snd].
  destruct (lookup d id) eqn:L; simpl; rewrite ?L; simpl; (split; [reflexivity|split; [reflexivity|intros k]]).
  - apply lookup_dict_del.
  - destruct (String.eqb k id) eqn:E; [|reflexivity].
    apply String.eqb_eq in E; subst k. exact L.
Qed.

Lemma get_job_status_state (id : string) (w : world) : snd (get_job_status id w) = w.
Proof.
  destruct w as [d c tk u tr].
  unfold get_job_status, contains, get_item, bind, raise; simpl.
  destruct (lookup d id) eqn:L; simpl; rewrite ?L; reflexivity.
Qed.

Lemma get_job_result_state (id : string) (w : world) : snd (get_job_result id w) = w.
Proof.
  destruct w as [d c tk u tr].
  unfold get_job_result, contains, get_item, bind, raise, ret; simpl.
  destruct (lookup d id) as [j|] eqn:L; simpl; rewrite ?L; simpl; [|reflexivity].
  destruct (status j); reflexivity.
Qed.

Lemma health_check_state {R} (p : provider R) (w : world) : snd (health_check R p w) = w.
Proof.
  destruct w as [d c tk u tr].
  unfold health_check, get_crew_class, load_crew_module, try_except, bind, now, ret, raise.
  destruct (import_crew p); reflexivity.
Qed.

Lemma run_crew_sync_frame {R} (str_R : R -> string) (p : provider R) (inp : inputs) (w : world) :
  jobs (snd (run_crew_sync R str_R p inp w)) = jobs w /\
  tasks (snd (run_crew_sync R str_R p inp w)) = tasks w /\
  used (snd (run_crew_sync R str_R p inp w)) = used w.
Proof.
  destruct w as [d c tk u tr].
  unfold run_crew_sync, get_crew_class, load_crew_module, call_crew_class, call_crew,
    call_kickoff, try_except, bind, now, ret, raise, log, with_clock.
  destruct (import_crew p); simpl; [|repeat split].
  destruct (instantiate p) as [[]|]; simpl; [|repeat split].
  destruct (build_crew p) as [[]|]; simpl; [|repeat split].
  destruct (kickoff p inp c) as [t [r|e]]; simpl; repeat split.
Qed.

(** ** The registry invariant *)

(** The three shapes a record has between two steps of the server. *)
Definition job_ok (j : job) : Prop :=
  (status j = Pending /\ completed_at j = None /\ result j = None /\ error j = None) \/
  (status j = Completed /\ completed_at j <> None /\ result j <> None /\ error j = None) \/
  (status j = Failed /\ completed_at j <> None /\ result j = None /\ error j <> None).

Record inv (w : world) : Prop := {
  inv_jobs : forall id j, lookup (jobs w) id = Some j -> job_ok j;
  inv_pending : forall id inp j,
      In (id, inp) (tasks w) -> lookup (jobs w) id = Some j -> status j = Pending;
  inv_nodup : NoDup (map fst (tasks w));
  inv_tasks_used : forall id inp, In (id, inp) (tasks w) -> In id (used w);
  inv_jobs_used : forall id j, lookup (jobs w) id = Some j -> In id (used w)
}.

Lemma inv_init (t : string) : inv (mkWorld [] t [] [] []).
Proof.
  constructor; simpl; try (intros; discriminate); try (intros; contradiction).
  constructor.
Qed.

Lemma inv_ext (w w' : world) :
  inv w -> (forall k, lookup (jobs w') k = lookup (jobs w) k) ->
  tasks w' = tasks w -> used w' = used w -> inv w'.
Proof.
  intros [Hj Hp Hn Ht Hu] Hl HT HU.
  constructor; rewrite ?HT, ?HU; intros *; rewrite ?Hl; eauto.
Qed.

Lemma pending_ok (j : job) (r e t : string) :
  status j = Pending -> job_ok j ->
  job_ok (completed_record j r t) /\ job_ok (failed_record j e t).
Proof.
  intros Hs [(_ & _ & Hr & He)|[(Hs' & _)|(Hs' & _)]]; [|congruence|congruence].
  unfold job_ok, completed_record, failed_record; simpl.
  split; right; [left|right]; rewrite ?Hr, ?He; repeat split; discriminate.
Qed.

Lemma in_map_fst {A B} (a : A) (b : B) (l : list (A * B)) :
  In (a, b) l -> In a (map fst l).
Proof. intros H. apply (in_map fst) in H. exact H. Qed.

(** The runner moves a well-formed Pending record to a well-formed
    terminal one and touches no other record. *)
Lemma run_crew_job_pending {R} (str_R : R -> string) (p : provider R)
    (id : string) (inp : inputs) (w : world) (j : job) :
  lookup (jobs w) id = Some j -> status j = Pending -> job_ok j ->
  exists w' j',
    run_crew_job R str_R p id inp w = (inl tt, w') /\
    tasks w' = tasks w /\ used w' = used w /\
    (forall k, k <> id -> lookup (jobs w') k = lookup (jobs w) k) /\
    lookup (jobs w') id = Some j' /\ job_ok j' /\
    (status j' = Completed \/ status j' = Failed).
Proof.
  intros L Hs Hok.
  destruct (run_crew_job_present str_R p id inp w j L)
    as (w' & Hrun & Htk & Hus & Hoth & Hcase).
  exists w'.
  assert (Hid : exists j', lookup (jobs w') id = Some j' /\ job_ok j' /\
                           (status j' = Completed \/ status j' = Failed)).
  { destruct (crew_load p) as [u|e].
    - destruct (kickoff p inp (clock w)) as [t [r|e]];
        destruct Hcase as (_ & _ & Hl); rewrite Hl; eexists; split; try reflexivity.
      + split; [apply (pending_ok j (str_R r) "" t Hs Hok)|left; reflexivity].
      + split; [apply (pending_ok j "" (str_exn e) t Hs Hok)|right; reflexivity].
    - destruct Hcase as (_ & _ & Hl). rewrite Hl. eexists; split; [reflexivity|].
      split; [apply (pending_ok j "" (str_exn e) (clock w) Hs Hok)|right; reflexivity]. }
  destruct Hid as (j' & Hl & Hok' & Hst).
  exists j'. repeat split; assumption.
Qed.

Section Invariant.

Variable R : Type.
Variable str_R : R -> string.

Lemma inv_submit (w : world) (token : string) (inp : inputs) :
  inv w -> ~ In token (used w) -> inv (snd (run_crew token inp w)).
Proof.
  intros [Hj Hp Hn Ht Hu] Hfresh. rewrite run_crew_eq. simpl.
  constructor; simpl.
  - intros id j. rewrite lookup_dict_set.
    destruct (String.eqb id token); [intros [= <-]; left; simpl; auto|apply Hj].
  - intros id inp' j Hin. rewrite lookup_dict_set.
    destruct (String.eqb id token) eqn:E; [intros [= <-]; reflexivity|].
    apply in_app_or in Hin as [Hin|[[= -> _]|[]]]; [eapply Hp; eauto|].
    rewrite String.eqb_refl in E; discriminate.
  - rewrite map_app. apply NoDup_app; [exact Hn|repeat constructor; auto|].
    intros a Ha [<-|[]]. apply in_map_iff in Ha as [[k v] [Hk Hkv]]; simpl in Hk; subst k.
    apply Hfresh, (Ht _ _ Hkv).
  - intros id inp' Hin. apply in_app_or in Hin as [Hin|[[= -> _]|[]]]; [right; eauto|left; reflexivity].
  - intros id j. rewrite lookup_dict_set.
    destruct (String.eqb id token) eqn:E.
    + apply String.eqb_eq in E; subst; left; reflexivity.
    + intros H; right; eauto.
Qed.

Lemma inv_runner (w : world) (p : provider R) l1 id inp l2 :
  inv w -> tasks w = app l1 ((id, inp) :: l2) ->
  inv (snd (run_crew_job R str_R p id inp (with_tasks (app l1 l2) w))).
Proof.
  intros I HT. destruct I as [Hj Hp Hn Ht Hu].
  assert (Hin : In (id, inp) (tasks w)) by (rewrite HT; apply in_or_app; right; left; reflexivity).
  rewrite HT, map_app in Hn. simpl in Hn.
  assert (Hnot : ~ In id (map fst (app l1 l2))) by (rewrite map_app; exact (NoDup_remove_2 _ _ _ Hn)).
  assert (Hsub : forall x, In x (app l1 l2) -> In x (tasks w)).
  { intros x Hx. rewrite HT. apply in_app_or in Hx as [Hx|Hx]; apply in_or_app; [left|right; right]; exact Hx. }
  assert (Hn' : NoDup (map fst (app l1 l2))) by (rewrite map_app; exact (NoDup_remove_1 _ _ _ Hn)).
  destruct (lookup (jobs w) id) as [j|] eqn:L.
  - destruct (run_crew_job_pending str_R p id inp (with_tasks (app l1 l2) w) j L
                (Hp _ _ _ Hin L) (Hj _ _ L))
      as (w' & j' & Hrun & Htk & Hus & Hoth & Hl & Hok & _).
    rewrite Hrun. simpl. simpl in Htk, Hus.
    assert (Hlk : forall k, lookup (jobs w') k = if String.eqb k id then Some j' else lookup (jobs w) k).
    { intros k. destruct (String.eqb k id) eqn:E.
      - apply String.eqb_eq in E; subst k; exact Hl.
      - apply Hoth. intros ->. rewrite String.eqb_refl in E. discriminate. }
    constructor; rewrite ?Htk, ?Hus.
    + intros k jk. rewrite Hlk. destruct (String.eqb k id); [intros [= <-]; exact Hok|apply Hj].
    + intros k inp' jk Hx. rewrite Hlk. destruct (String.eqb k id) eqn:E.
      * apply String.eqb_eq in E; subst k. exfalso. exact (Hnot (in_map_fst _ _ _ Hx)).
      * apply (Hp _ _ _ (Hsub _ Hx)).
    + exact Hn'.
    + intros k inp' Hx. exact (Ht _ _ (Hsub _ Hx)).
    + intros k jk. rewrite Hlk. destruct (String.eqb k id) eqn:E.
      * apply String.eqb_eq in E; subst k. intros _. exact (Hu _ _ L).
      * apply Hu.
  - rewrite run_crew_job_absent by exact L. simpl.
    constructor; simpl; auto.
    + intros id' inp' j Hx. apply (Hp _ _ _ (Hsub _ Hx)).
    + intros id' inp' Hx. apply (Ht _ _ (Hsub _ Hx)).
Qed.

Lemma inv_step (w w' : world) : inv w -> step R str_R w w' -> inv w'.
Proof.
  intros I S. destruct S as [w token inp Hf|w p l1 id inp l2 HT|w id|w id|w|w id|w p|w p inp|w t].
  - exact (inv_submit w token inp I Hf).
  - exact (inv_runner w p l1 id inp l2 I HT).
  - rewrite get_job_status_state. exact I.
  - rewrite get_job_result_state. exact I.
  - exact I.
  - destruct (delete_job_frame id w) as (Htk & Hus & Hl).
    destruct I as [Hj Hp Hn Ht Hu].
    constructor; rewrite ?Htk, ?Hus; try assumption.
    + intros k j. rewrite Hl. destruct (String.eqb k id); [discriminate|apply Hj].
    + intros k inp j Hx. rewrite Hl. destruct (String.eqb k id); [discriminate|apply (Hp _ _ _ Hx)].
    + intros k j. rewrite Hl. destruct (String.eqb k id); [discriminate|apply Hu].
  - rewrite health_check_state. exact I.
  - destruct (run_crew_sync_frame str_R p inp w) as (Hj & Htk & Hus).
    apply (inv_ext w); [exact I|intros k; rewrite Hj; reflexivity|exact Htk|exact Hus].
  - apply (inv_ext w); [exact I|reflexivity|reflexivity|reflexivity].
Qed.

Lemma reachable_inv (w : world) : reachable R str_R w -> inv w.
Proof.
  induction 1 as [t|w w' _ IH S]; [apply inv_init|exact (inv_step w w' IH S)].
Qed.

End Invariant.

(** ** Concrete fixtures

    A crew whose [kickoff] returns a [str] (so [str(result)] is the identity)
    and a crew whose module cannot be imported. *)

Definition py_str (s : string) : string := s.

Definition inp0 : inputs := [("topic", "x")].

Definition crew_ok : provider string :=
  mkProvider (inl "MarketingPostsCrew") (inl tt) (inl tt)
             (fun _ _ => ("2024-01-01T00:05:00", inl "posts")).

Definition crew_missing : provider string :=
  mkProvider (inr "No module named 'marketing_posts'") (inl tt) (inl tt)
             (fun _ _ => ("2024-01-01T00:05:00", inl "posts")).

Definition w0 : world := mkWorld [] "2024-01-01T00:00:00" [] [] [].

(** After [POST /crew/run] with the token ["job-1"]. *)
Definition w_sub : world := snd (run_crew "job-1" inp0 w0).

(** After its background task has run with a working crew. *)
Definition w_done : world :=
  snd (run_crew_job string py_str crew_ok "job-1" inp0 (with_tasks [] w_sub)).

(** After [DELETE /crew/jobs/job-1] issued before the background task ran. *)
Definition w_del : world := snd (delete_job "job-1" w_sub).

Definition job1_pending : job :=
  mkJob "job-1" Pending "2024-01-01T00:00:00" None None None.

Lemma reachable_w_sub : reachable string py_str w_sub.
Proof.
  apply (reach_step _ _ w0); [apply reach_init|].
  apply step_submit. simpl. tauto.
Qed.

Lemma reachable_w_done : reachable string py_str w_done.
Proof.
  apply (reach_step _ _ w_sub); [exact reachable_w_sub|].
  unfold w_done. apply (step_runner _ _ w_sub crew_ok [] "job-1" inp0 []).
  reflexivity.
Qed.

Lemma reachable_w_del : reachable string py_str w_del.
Proof.
  apply (reach_step _ _ w_sub); [exact reachable_w_sub|]. apply step_delete.
Qed.

(** Number of [kickoff] invocations in a trace. *)
Definition kickoff_count (tr : list event) : nat :=
  length (filter (fun ev => match ev with EvKickoff _ => true | _ => false end) tr).

Example fixture_done :
  lookup (jobs w_done) "job-1" =
  Some (mkJob "job-1" Completed "2024-01-01T00:00:00" (Some "2024-01-01T00:05:00")
              (Some "posts") None).
Proof. reflexivity. Qed.

(** ** Claims *)

Section Claims.

Variable R : Type.
Variable str_R : R -> string.

(** C1 (amended).  For a job that has a record, the runner returns
    normally (nothing escapes it); its first effect is the write of status
    Running; it then loads the crew ([get_crew_class()], [crew_class()],
    [crew()]).  If loading raises [e], [kickoff] is not invoked and the record
    becomes Failed with [str(e)] in [error] and [completed_at] the current
    time.  Otherwise [kickoff] is invoked exactly once; on return [r] the
    record becomes Completed with [str(r)] in [result], on an exception [e]
    it becomes Failed with [str(e)] in [error], and in both cases
    [completed_at] is the time at which [kickoff] returned.  No other record,
    no scheduled task and no identifier is touched. *)
Theorem run_crew_job_outcome (p : provider R) (id : string) (inp : inputs)
    (w : world) (j : job) :
  lookup (jobs w) id = Some j ->
  exists w',
    run_crew_job R str_R p id inp w = (inl tt, w') /\
    tasks w' = tasks w /\ used w' = used w /\
    (forall k, k <> id -> lookup (jobs w') k = lookup (jobs w) k) /\
    match crew_load p with
    | inr e =>
        clock w' = clock w /\
        trace w' = app (trace w) [EvStatus id Running; EvStatus id Failed] /\
        lookup (jobs w') id = Some (failed_record j (str_exn e) (clock w))
    | inl _ =>
        let '(t, o) := kickoff p inp (clock w) in
        clock w' = t /\
        match o with
        | inl r =>
            trace w' = app (trace w) [EvStatus id Running; EvKickoff inp; EvStatus id Completed] /\
            lookup (jobs w') id = Some (completed_record j (str_R r) t)
        | inr e =>
            trace w' = app (trace w) [EvStatus id Running; EvKickoff inp; EvStatus id Failed] /\
            lookup (jobs w') id = Some (failed_record j (str_exn e) t)
        end
    end.
Proof. apply run_crew_job_present. Qed.

End Claims.

(** C1 (counterexample).  When the crew module cannot be imported, the
    runner of a job that has a record never invokes [kickoff]: the entry
    point is invoked zero times, not exactly once, and the job ends Failed
    with the import error. *)
Lemma run_crew_job_import_failure_no_kickoff :
  let w' := snd (run_crew_job string py_str crew_missing "job-1" inp0 (with_tasks [] w_sub)) in
  lookup (jobs w_sub) "job-1" = Some job1_pending /\
  kickoff_count (trace w') <> 1 /\
  kickoff_count (trace w') = 0 /\
  option_map status (lookup (jobs w') "job-1") = Some Failed.
Proof. vm_compute. repeat split; discriminate. Qed.

Lemma run_crew_job_outcome_witness :
  lookup (jobs (with_tasks [] w_sub)) "job-1" = Some job1_pending /\
  exists w',
    run_crew_job string py_str crew_ok "job-1" inp0 (with_tasks [] w_sub) = (inl tt, w') /\
    tasks w' = tasks (with_tasks [] w_sub) /\ used w' = used (with_tasks [] w_sub) /\
    (forall k, k <> "job-1" -> lookup (jobs w') k = lookup (jobs (with_tasks [] w_sub)) k) /\
    clock w' = "2024-01-01T00:05:00" /\
    trace w' = [EvStatus "job-1" Running; EvKickoff inp0; EvStatus "job-1" Completed] /\
    lookup (jobs w') "job-1" = Some (completed_record job1_pending "posts" "2024-01-01T00:05:00").
Proof.
  split; [reflexivity|].
  exact (run_crew_job_outcome string py_str crew_ok "job-1" inp0 (with_tasks [] w_sub)
           job1_pending eq_refl).
Defined.

(** Forward moves of a job's status: Pending -> Running ->
    (Completed | Failed), terminal states fixed. *)
Definition forward (a b : job_state) : bool :=
  match a, b with
  | Pending, _ => true
  | Running, Pending => false
  | Running, _ => true
  | Completed, Completed => true
  | Failed, Failed => true
  | _, _ => false
  end.

Section Executions.

Variable R : Type.
Variable str_R : R -> string.

(** Finite executions. *)
Inductive steps : world -> world -> Prop :=
| steps_refl w : steps w w
| steps_cons w w1 w' : step R str_R w w1 -> steps w1 w' -> steps w w'.

Lemma steps_reachable (w w' : world) : reachable R str_R w -> steps w w' -> reachable R str_R w'.
Proof. induction 2; eauto using reach_step. Qed.

(** One step leaves the record of [id] as it is, deletes it, creates it
    (Pending, under an identifier never produced before), or, as the runner
    of [id], moves it from Pending to a terminal status. *)
Lemma step_lookup (w w' : world) (id : string) :
  reachable R str_R w -> step R str_R w w' ->
  (lookup (jobs w') id = lookup (jobs w) id \/
   lookup (jobs w') id = None \/
   (lookup (jobs w) id = None /\ ~ In id (used w) /\
    exists j', lookup (jobs w') id = Some j' /\ status j' = Pending) \/
   (exists j j', lookup (jobs w) id = Some j /\ status j = Pending /\
                 lookup (jobs w') id = Some j' /\
                 (status j' = Completed \/ status j' = Failed))) /\
  (forall x, In x (used w) -> In x (used w')).
Proof.
  intros Rw S. pose proof (reachable_inv R str_R w Rw) as I.
  destruct I as [Hj Hp Hn Ht Hu].
  destruct S as [w token inp Hf|w p l1 id' inp l2 HT|w id'|w id'|w|w id'|w p|w p inp|w t].
  - rewrite run_crew_eq; simpl. split; [|intros x Hx; right; exact Hx].
    rewrite !lookup_dict_set.
    destruct (String.eqb id token) eqn:E; [|left; reflexivity].
    apply String.eqb_eq in E; subst token.
    right; right; left. split; [|split; [exact Hf|eexists; split; reflexivity]].
    destruct (lookup (jobs w) id) as [j|] eqn:L; [|reflexivity].
    exfalso. exact (Hf (Hu _ _ L)).
  - assert (Hin : In (id', inp) (tasks w)) by (rewrite HT; apply in_or_app; right; left; reflexivity).
    destruct (lookup (jobs w) id') as [j0|] eqn:L0.
    + destruct (run_crew_job_pending str_R p id' inp (with_tasks (app l1 l2) w) j0 L0
                  (Hp _ _ _ Hin L0) (Hj _ _ L0))
        as (w1 & j1 & Hrun & Htk & Hus & Hoth & Hl & Hok & Hst).
      rewrite Hrun. simpl. simpl in Hus. rewrite Hus. split; [|intros x Hx; exact Hx].
      destruct (String.eqb id id') eqn:E.
      * apply String.eqb_eq in E; subst id'.
        right; right; right. exists j0, j1. repeat split; try assumption.
        exact (Hp _ _ _ Hin L0).
      * left. apply Hoth. intros ->. rewrite String.eqb_refl in E. discriminate.
    + rewrite run_crew_job_absent by exact L0. simpl.
      split; [left; reflexivity|intros x Hx; exact Hx].
  - rewrite get_job_status_state. split; [left; reflexivity|tauto].
  - rewrite get_job_result_state. split; [left; reflexivity|tauto].
  - simpl. split; [left; reflexivity|tauto].
  - destruct (delete_job_frame id' w) as (Htk & Hus & Hl).
    rewrite Hus, Hl. split; [|tauto].
    destruct (String.eqb id id'); [right; left|left]; reflexivity.
  - rewrite health_check_state. split; [left; reflexivity|tauto].
  - destruct (run_crew_sync_frame str_R p inp w) as (Hj' & Htk & Hus).
    rewrite Hj', Hus. split; [left; reflexivity|tauto].
  - simpl. split; [left; reflexivity|tauto].
Qed.

Lemma reachable_used (w : world) (id : string) (j : job) :
  reachable R str_R w -> lookup (jobs w) id = Some j -> In id (used w).
Proof. intros Rw L. exact (inv_jobs_used w (reachable_inv R str_R w Rw) id j L). Qed.

Lemma forward_refl (s : job_state) : forward s s = true.
Proof. destruct s; reflexivity. Qed.

(** A terminal record stays as it is, or is absent for good. *)
Lemma terminal_stable (w w' : world) (id : string) (j : job) :
  reachable R str_R w -> steps w w' ->
  (status j = Completed \/ status j = Failed) ->
  (lookup (jobs w) id = Some j \/ (lookup (jobs w) id = None /\ In id (used w))) ->
  lookup (jobs w') id = Some j \/ (lookup (jobs w') id = None /\ In id (used w')).
Proof.
  intros Rw S Ht. induction S as [w|w w1 w' S1 S IH]; [tauto|].
  intros P. apply IH; [exact (reach_step _ _ w w1 Rw S1)|].
  destruct (step_lookup w w1 id Rw S1) as [C Hused].
  destruct P as [L|[L Hin]].
  - destruct C as [C|[C|[(C & _)|(j0 & j1 & C & Hs & _)]]].
    + left. rewrite C. exact L.
    + right. split; [exact C|apply Hused; exact (reachable_used w id j Rw L)].
    + congruence.
    + rewrite L in C. injection C as <-. destruct Ht; congruence.
  - destruct C as [C|[C|[(_ & Hf & _)|(j0 & j1 & C & _)]]].
    + right. rewrite C. split; [exact L|apply Hused; exact Hin].
    + right. split; [exact C|apply Hused; exact Hin].
    + contradiction.
    + congruence.
Qed.

End Executions.

Section RegistryClaims.

Variable R : Type.
Variable str_R : R -> string.

(** C2.  In every reachable state, every record has at most one of
    [result] and [error] set, exactly one of them when its status is
    Completed or Failed, and [completed_at] set whenever one of them is set.
    (Inside the runner [result]/[error] is written just before
    [completed_at], but the runner is one atomic step, so no reachable state
    lies between the two writes.) *)
Theorem job_result_error_exclusive (w : world) (id : string) (j : job) :
  reachable R str_R w -> lookup (jobs w) id = Some j ->
  ~ (result j <> None /\ error j <> None) /\
  ((status j = Completed \/ status j = Failed) ->
     (result j <> None /\ error j = None) \/ (result j = None /\ error j <> None)) /\
  ((result j <> None \/ error j <> None) -> completed_at j <> None).
Proof.
  intros Rw L.
  destruct (inv_jobs w (reachable_inv R str_R w Rw) id j L)
    as [(Hs & Hc & Hr & He)|[(Hs & Hc & Hr & He)|(Hs & Hc & Hr & He)]];
    rewrite Hs.
  - rewrite Hr, He. split; [tauto|split; [intros [H|H]; discriminate|tauto]].
  - split; [tauto|split; [tauto|intros _; exact Hc]].
  - split; [tauto|split; [tauto|intros _; exact Hc]].
Qed.

(** C3.  Job status only moves forward.  In one step from a reachable
    state an existing record's status moves along Pending -> Running ->
    (Completed | Failed) or stays, and a record that appears is Pending; over
    any execution a Completed or Failed record keeps all of its fields, or is
    deleted (and never re-created). *)
Theorem job_status_forward_only (w w' : world) (id : string) :
  reachable R str_R w ->
  (step R str_R w w' ->
     forall j j', lookup (jobs w) id = Some j -> lookup (jobs w') id = Some j' ->
                  forward (status j) (status j') = true) /\
  (step R str_R w w' ->
     forall j', lookup (jobs w) id = None -> lookup (jobs w') id = Some j' ->
                status j' = Pending) /\
  (steps R str_R w w' ->
     forall j, lookup (jobs w) id = Some j -> (status j = Completed \/ status j = Failed) ->
               lookup (jobs w') id = Some j \/ lookup (jobs w') id = None).
Proof.
  intros Rw. repeat split.
  - intros S j j' L L'. destruct (step_lookup R str_R w w' id Rw S) as [C _].
    destruct C as [C|[C|[(C & _)|(j0 & j1 & C & Hs & C' & _)]]].
    + rewrite C, L in L'. injection L' as <-. apply forward_refl.
    + congruence.
    + congruence.
    + rewrite L in C. injection C as <-. rewrite Hs. reflexivity.
  - intros S j' L L'. destruct (step_lookup R str_R w w' id Rw S) as [C _].
    destruct C as [C|[C|[(_ & _ & j1 & C & Hs)|(j0 & j1 & C & _)]]].
    + congruence.
    + congruence.
    + rewrite C in L'. injection L' as <-. exact Hs.
    + congruence.
  - intros S j L Ht.
    destruct (terminal_stable R str_R w w' id j Rw S Ht (or_introl L)) as [H|[H _]]; tauto.
Qed.

(** C7.  In every reachable state a record's [completed_at] is unset while
    its status is Pending or Running and set once it is Completed or
    Failed. *)
Theorem completed_at_iff_terminal (w : world) (id : string) (j : job) :
  reachable R str_R w -> lookup (jobs w) id = Some j ->
  ((status j = Pending \/ status j = Running) -> completed_at j = None) /\
  ((status j = Completed \/ status j = Failed) -> completed_at j <> None).
Proof.
  intros Rw L.
  destruct (inv_jobs w (reachable_inv R str_R w Rw) id j L)
    as [(Hs & Hc & Hr & He)|[(Hs & Hc & Hr & He)|(Hs & Hc & Hr & He)]];
    rewrite Hs; split; intros [H|H]; try discriminate; assumption.
Qed.

End RegistryClaims.

Lemma job_result_error_exclusive_witness :
  reachable string py_str w_done /\
  lookup (jobs w_done) "job-1" =
    Some (completed_record job1_pending "posts" "2024-01-01T00:05:00") /\
  (~ (Some "posts" <> None /\ @None string <> None) /\
   ((Completed = Completed \/ Completed = Failed) ->
      (Some "posts" <> None /\ @None string = None) \/ (Some "posts" = None /\ @None string <> None)) /\
   ((Some "posts" <> None \/ @None string <> None) -> Some "2024-01-01T00:05:00" <> None)).
Proof.
  split; [exact reachable_w_done|split; [reflexivity|]].
  exact (job_result_error_exclusive string py_str w_done "job-1"
           (completed_record job1_pending "posts" "2024-01-01T00:05:00")
           reachable_w_done eq_refl).
Defined.

Lemma job_status_forward_only_witness :
  reachable string py_str w_sub /\
  ((step string py_str w_sub w_done ->
     forall j j', lookup (jobs w_sub) "job-1" = Some j -> lookup (jobs w_done) "job-1" = Some j' ->
                  forward (status j) (status j') = true) /\
   (step string py_str w_sub w_done ->
     forall j', lookup (jobs w_sub) "job-1" = None -> lookup (jobs w_done) "job-1" = Some j' ->
                status j' = Pending) /\
   (steps string py_str w_sub w_done ->
     forall j, lookup (jobs w_sub) "job-1" = Some j -> (status j = Completed \/ status j = Failed) ->
               lookup (jobs w_done) "job-1" = Some j \/ lookup (jobs w_done) "job-1" = None)).
Proof.
  split; [exact reachable_w_sub|].
  exact (job_status_forward_only string py_str w_sub w_done "job-1" reachable_w_sub).
Defined.

Lemma completed_at_iff_terminal_witness :
  reachable string py_str w_done /\
  lookup (jobs w_done) "job-1" =
    Some (completed_record job1_pending "posts" "2024-01-01T00:05:00") /\
  (((Completed = Pending \/ Completed = Running) -> Some "2024-01-01T00:05:00" = None) /\
   ((Completed = Completed \/ Completed = Failed) -> Some "2024-01-01T00:05:00" <> None)).
Proof.
  split; [exact reachable_w_done|split; [reflexivity|]].
  exact (completed_at_iff_terminal string py_str w_done "job-1"
           (completed_record job1_pending "posts" "2024-01-01T00:05:00")
           reachable_w_done eq_refl).
Defined.

(** C4.  [GET /crew/result/{job_id}], in any state: 404 when there is no
    record, 202 when it is Pending or Running, 500 with the record's error
    text when it is Failed, and 200 with the record's result when it is
    Completed; the state is left unchanged. *)
Theorem get_job_result_cases (w : world) (id : string) :
  (lookup (jobs w) id = None ->
     get_job_result id w = (inr (HTTPException 404 "Job not found"), w)) /\
  (forall j, lookup (jobs w) id = Some j -> (status j = Pending \/ status j = Running) ->
     get_job_result id w = (inr (HTTPException 202 "Job still running"), w)) /\
  (forall j, lookup (jobs w) id = Some j -> status j = Failed ->
     get_job_result id w = (inr (HTTPException 500 ("Job failed: " ++ fmt_opt (error j))), w)) /\
  (forall j, lookup (jobs w) id = Some j -> status j = Completed ->
     http_code (fst (get_job_result id w)) = 200%Z /\
     get_job_result id w = (inl (mkResultBody id "completed" (result j) (completed_at j)), w)).
Proof.
  destruct w as [d c tk u tr]. simpl.
  unfold get_job_result, contains, get_item, bind, raise, ret; simpl.
  split; [|split; [|split]].
  - intros L. rewrite L. reflexivity.
  - intros j L [Hs|Hs]; rewrite L; simpl; rewrite L, Hs; reflexivity.
  - intros j L Hs. rewrite L; simpl; rewrite L, Hs; reflexivity.
  - intros j L Hs. rewrite L; simpl; rewrite L, Hs; split; reflexivity.
Qed.

Definition job1_failed : job :=
  failed_record job1_pending "No module named 'marketing_posts'" "2024-01-01T00:00:00".

Lemma get_job_result_cases_witness :
  lookup (jobs (mkWorld [("job-1", job1_failed)] "t" [] ["job-1"] [])) "job-1" = Some job1_failed /\
  status job1_failed = Failed /\
  get_job_result "job-1" (mkWorld [("job-1", job1_failed)] "t" [] ["job-1"] []) =
    (inr (HTTPException 500 ("Job failed: " ++ fmt_opt (error job1_failed))),
     mkWorld [("job-1", job1_failed)] "t" [] ["job-1"] []).
Proof.
  split; [reflexivity|split; [reflexivity|]].
  exact (proj1 (proj2 (proj2 (get_job_result_cases
           (mkWorld [("job-1", job1_failed)] "t" [] ["job-1"] []) "job-1")))
           job1_failed eq_refl eq_refl).
Defined.

(** C5 (code bug).  A job deleted before its background task runs: the
    task is still scheduled, and when it runs the write of status Running
    raises [KeyError], the [except] handler's write of status Failed raises
    [KeyError] again, and that exception leaves [run_crew_job]. *)
Theorem run_crew_job_deleted_job_raises :
  reachable string py_str w_del /\
  tasks w_del = [("job-1", inp0)] /\
  lookup (jobs w_del) "job-1" = None /\
  fst (run_crew_job string py_str crew_ok "job-1" inp0 (with_tasks [] w_del)) =
    inr (KeyError "job-1") /\
  http_code (fst (run_crew_job string py_str crew_ok "job-1" inp0 (with_tasks [] w_del))) = 500%Z.
Proof.
  split; [exact reachable_w_del|].
  vm_compute. repeat split.
Qed.

(** The read handlers' responses depend on the [jobs] dict only. *)
Lemma reads_depend_on_jobs (w w' : world) (id : string) :
  jobs w' = jobs w ->
  fst (get_job_status id w') = fst (get_job_status id w) /\
  fst (get_job_result id w') = fst (get_job_result id w) /\
  fst (list_jobs w') = fst (list_jobs w).
Proof.
  destruct w as [d c tk u tr], w' as [d' c' tk' u' tr']. simpl. intros ->.
  unfold get_job_status, get_job_result, list_jobs, contains, get_item, bind, raise, ret; simpl.
  destruct (lookup d id) as [j|] eqn:L; simpl; rewrite ?L; simpl; [|repeat split].
  split; [reflexivity|split; [|reflexivity]].
  destruct (status j); reflexivity.
Qed.

Section HandlerClaims.

Variable R : Type.
Variable str_R : R -> string.

(** C6.  [POST /crew/run] with a token [uuid.uuid4()] has never produced:
    the identifier is fresh (no record, no task), the response is the
    identifier with status "started", a Pending record created at the
    current time with [completed_at], [result] and [error] unset is in the
    registry, appended to the listing and returned by a status query made
    right after, which therefore sees Pending; the runner task is
    scheduled. *)
Theorem run_crew_registers_pending (w : world) (token : string) (inp : inputs) :
  reachable R str_R w -> ~ In token (used w) ->
  let w' := snd (run_crew token inp w) in
  let rec := mkJob token Pending (clock w) None None None in
  lookup (jobs w) token = None /\ ~ In token (map fst (tasks w)) /\
  fst (run_crew token inp w) = inl (token, "started") /\
  lookup (jobs w') token = Some rec /\
  fst (list_jobs w') = inl (app (dict_values (jobs w)) [rec]) /\
  fst (get_job_status token w') = inl rec /\
  (exists j, fst (get_job_status token w') = inl j /\ (status j = Pending \/ status j = Running)) /\
  In (token, inp) (tasks w').
Proof.
  intros Rw Hf w' rec.
  pose proof (reachable_inv R str_R w Rw) as [Hj Hp Hn Ht Hu].
  assert (L : lookup (jobs w) token = None).
  { destruct (lookup (jobs w) token) as [j|] eqn:L; [exfalso; exact (Hf (Hu _ _ L))|reflexivity]. }
  assert (Lw : lookup (jobs w') token = Some rec).
  { unfold w'. rewrite run_crew_eq. simpl. rewrite lookup_dict_set, String.eqb_refl. reflexivity. }
  assert (St : fst (get_job_status token w') = inl rec).
  { cbv beta iota delta [get_job_status contains get_item bind]. rewrite Lw.
    cbv beta iota delta [negb]. rewrite Lw. reflexivity. }
  split; [exact L|split; [|split; [|split; [exact Lw|split; [|split; [exact St|split]]]]]].
  - intros Hin. apply in_map_iff in Hin as [[k v] [Hk Hkv]]. simpl in Hk; subst k.
    exact (Hf (Ht _ _ Hkv)).
  - rewrite run_crew_eq. reflexivity.
  - unfold w'. rewrite run_crew_eq. simpl. unfold dict_set. rewrite L.
    unfold dict_values. rewrite map_app. reflexivity.
  - exists rec. split; [exact St|left; reflexivity].
  - unfold w'. rewrite run_crew_eq. simpl. apply in_or_app. right. left. reflexivity.
Qed.

(** C8.  [DELETE /crew/jobs/{job_id}]: removes an existing record (and
    no other) and answers 200; answers 404 and changes nothing when there
    is no record; after a successful delete, a status query on the same
    identifier answers 404. *)
Theorem delete_job_cases (w : world) (id : string) :
  (forall j, lookup (jobs w) id = Some j ->
     delete_job id w = (inl "Job deleted successfully", with_jobs (dict_del id (jobs w)) w) /\
     lookup (jobs (snd (delete_job id w))) id = None /\
     (forall k, k <> id -> lookup (jobs (snd (delete_job id w))) k = lookup (jobs w) k)) /\
  (lookup (jobs w) id = None ->
     delete_job id w = (inr (HTTPException 404 "Job not found"), w)) /\
  (forall m w', delete_job id w = (inl m, w') ->
     get_job_status id w' = (inr (HTTPException 404 "Job not found"), w')).
Proof.
  destruct w as [d c tk u tr]. simpl.
  split; [|split].
  - intros j L.
    assert (E : delete_job id (mkWorld d c tk u tr) =
                (inl "Job deleted successfully", with_jobs (dict_del id d) (mkWorld d c tk u tr))).
    { unfold delete_job, contains, del_item, bind, ret, raise. simpl. rewrite L. simpl. rewrite L. reflexivity. }
    rewrite E. simpl. split; [reflexivity|split].
    + rewrite lookup_dict_del, String.eqb_refl. reflexivity.
    + intros k Hk. rewrite lookup_dict_del.
      destruct (String.eqb k id) eqn:Ek; [apply String.eqb_eq in Ek; contradiction|reflexivity].
  - intros L. unfold delete_job, contains, bind, raise. simpl. rewrite L. reflexivity.
  - intros m w' H.
    unfold delete_job, contains, del_item, bind, ret, raise in H. simpl in H.
    destruct (lookup d id) eqn:L; simpl in H; rewrite ?L in H; [|discriminate].
    injection H as _ <-.
    unfold get_job_status, contains, bind, raise. simpl.
    rewrite lookup_dict_del, String.eqb_refl. reflexivity.
Qed.

(** C9.  [GET /health] never raises and always answers 200, without
    changing the state: "healthy" with [crew_loaded] true and the class name
    when the crew module loads; "unhealthy" with [crew_loaded] false and the
    text of the load error otherwise. *)
Theorem health_check_always_200 (p : provider R) (w : world) :
  snd (health_check R p w) = w /\
  (exists b, fst (health_check R p w) = inl b) /\
  http_code (fst (health_check R p w)) = 200%Z /\
  (forall cls, import_crew p = inl cls ->
     fst (health_check R p w) = inl (mkHealthBody "healthy" (clock w) true (Some cls) None)) /\
  (forall msg, import_crew p = inr msg ->
     fst (health_check R p w) =
       inl (mkHealthBody "unhealthy" (clock w) false None
              (Some ("Could not load CrewAI crew module: " ++ msg)))).
Proof.
  unfold health_check, get_crew_class, load_crew_module, try_except, bind, now, ret, raise.
  destruct (import_crew p) as [cls|msg]; simpl.
  - split; [reflexivity|split; [eexists; reflexivity|split; [reflexivity|split]]].
    + intros cls' [= <-]. reflexivity.
    + intros msg' H. discriminate.
  - split; [reflexivity|split; [eexists; reflexivity|split; [reflexivity|split]]].
    + intros cls' H. discriminate.
    + intros msg' [= <-]. reflexivity.
Qed.

(** C10.  [POST /crew/run-sync] leaves the registry and the scheduled tasks
    as they were, so status, result and listing queries answer exactly as
    before; it answers 200 with [str(result)] when loading and [kickoff]
    succeed, and 500 with the error text otherwise. *)
Theorem run_crew_sync_registry_unchanged (p : provider R) (inp : inputs) (w : world) :
  let w' := snd (run_crew_sync R str_R p inp w) in
  jobs w' = jobs w /\ tasks w' = tasks w /\ used w' = used w /\
  (forall id, fst (get_job_status id w') = fst (get_job_status id w) /\
              fst (get_job_result id w') = fst (get_job_result id w)) /\
  fst (list_jobs w') = fst (list_jobs w) /\
  match crew_load p with
  | inr e =>
      fst (run_crew_sync R str_R p inp w) =
        inr (HTTPException 500 ("Crew execution failed: " ++ str_exn e))
  | inl _ =>
      let '(t, o) := kickoff p inp (clock w) in
      match o with
      | inl r => fst (run_crew_sync R str_R p inp w) = inl (mkSyncBody "completed" (str_R r) t)
      | inr e =>
          fst (run_crew_sync R str_R p inp w) =
            inr (HTTPException 500 ("Crew execution failed: " ++ str_exn e))
      end
  end.
Proof.
  intros w'.
  destruct (run_crew_sync_frame str_R p inp w) as (Hj & Htk & Hus).
  split; [exact Hj|split; [exact Htk|split; [exact Hus|split; [|split]]]].
  - intros id. destruct (reads_depend_on_jobs w w' id Hj) as (H1 & H2 & _). split; assumption.
  - destruct (reads_depend_on_jobs w w' "" Hj) as (_ & _ & H3). exact H3.
  - destruct w as [d c tk u tr].
    unfold run_crew_sync, crew_load, get_crew_class, load_crew_module, call_crew_class, call_crew,
      call_kickoff, try_except, bind, now, ret, raise, log, with_clock.
    destruct (import_crew p); simpl; [|reflexivity].
    destruct (instantiate p) as [[]|]; simpl; [|reflexivity].
    destruct (build_crew p) as [[]|]; simpl; [|reflexivity].
    destruct (kickoff p inp c) as [t [r|e]]; simpl; reflexivity.
Qed.

End HandlerClaims.

Lemma run_crew_registers_pending_witness :
  reachable string py_str w0 /\ ~ In "job-1" (used w0) /\
  (let w' := snd (run_crew "job-1" inp0 w0) in
   let rec := mkJob "job-1" Pending (clock w0) None None None in
   lookup (jobs w0) "job-1" = None /\ ~ In "job-1" (map fst (tasks w0)) /\
   fst (run_crew "job-1" inp0 w0) = inl ("job-1", "started") /\
   lookup (jobs w') "job-1" = Some rec /\
   fst (list_jobs w') = inl (app (dict_values (jobs w0)) [rec]) /\
   fst (get_job_status "job-1" w') = inl rec /\
   (exists j, fst (get_job_status "job-1" w') = inl j /\ (status j = Pending \/ status j = Running)) /\
   In ("job-1", inp0) (tasks w')).
Proof.
  assert (R0 : reachable string py_str w0) by apply reach_init.
  assert (F0 : ~ In "job-1" (used w0)) by (simpl; tauto).
  split; [exact R0|split; [exact F0|]].
  exact (run_crew_registers_pending string py_str w0 "job-1" inp0 R0 F0).
Defined.

Lemma delete_job_cases_witness :
  lookup (jobs w_sub) "job-1" = Some job1_pending /\
  delete_job "job-1" w_sub = (inl "Job deleted successfully", with_jobs (dict_del "job-1" (jobs w_sub)) w_sub) /\
  get_job_status "job-1" w_del = (inr (HTTPException 404 "Job not found"), w_del).
Proof.
  pose proof (delete_job_cases w_sub "job-1") as (H1 & _ & H3).
  destruct (H1 job1_pending eq_refl) as (E & _ & _).
  split; [reflexivity|split; [exact E|]].
  exact (H3 "Job deleted successfully" w_del E).
Defined.

Lemma health_check_always_200_witness :
  import_crew crew_missing = inr "No module named 'marketing_posts'" /\
  fst (health_check string crew_missing w0) =
    inl (mkHealthBody "unhealthy" (clock w0) false None
           (Some ("Could not load CrewAI crew module: " ++ "No module named 'marketing_posts'"))).
Proof.
  split; [reflexivity|].
  pose proof (health_check_always_200 string crew_missing w0) as (_ & _ & _ & _ & H).
  exact (H "No module named 'marketing_posts'" eq_refl).
Defined.

(** * Further properties of the service *)

(** ** Keys and immutable fields of the registry *)

(** [d'] has the keys of [d], in the same order, and each record keeps its
    [job_id] and [created_at]. *)
Definition preserves (d d' : dict job) : Prop :=
  Forall2 (fun kv kv' => fst kv' = fst kv /\ job_id (snd kv') = job_id (snd kv) /\
                         created_at (snd kv') = created_at (snd kv)) d d'.

Lemma preserves_refl (d : dict job) : preserves d d.
Proof. induction d; constructor; auto. Qed.

Lemma preserves_update_r (d d' : dict job) (k : string) (f : job -> job) :
  (forall j, job_id (f j) = job_id j /\ created_at (f j) = created_at j) ->
  preserves d d' -> preserves d (update k f d').
Proof.
  intros Hf H. unfold preserves in *.
  induction H as [|[k1 v1] [k2 v2] d d' [H1 [H2 H3]] _ IH]; simpl in *; [apply Forall2_nil|].
  destruct (String.eqb k k2); apply Forall2_cons; simpl; auto.
  destruct (Hf v2) as [E1 E2]. rewrite E1, E2. auto.
Qed.

Lemma preserves_keys (d d' : dict job) : preserves d d' -> map fst d' = map fst d.
Proof. induction 1 as [|x y l l' [H _] _ IH]; simpl; congruence. Qed.


Lemma preserves_forall (d d' : dict job) :
  preserves d d' ->
  Forall (fun kv => job_id (snd kv) = fst kv) d ->
  Forall (fun kv => job_id (snd kv) = fst kv) d'.
Proof.
  induction 1 as [|x y l l' [H1 [H2 _]] _ IH]; intros F; [constructor|].
  inversion F; subst. constructor; [congruence|auto].
Qed.

(** The runner only rewrites fields of the record it runs: it never adds
    or removes a key and never changes a [job_id] or [created_at]. *)
Lemma run_crew_job_preserves {R} (str_R : R -> string) (p : provider R)
    (id : string) (inp : inputs) (w : world) :
  preserves (jobs w) (jobs (snd (run_crew_job R str_R p id inp w))).
Proof.
  destruct w as [d c tk u tr]. cbn [jobs].
  destruct (lookup d id) as [j|] eqn:H.
  - unfold_py. rewrite H.
    destruct (import_crew p) as [cls|msg];
      [destruct (instantiate p) as [[]|e];
        [destruct (build_crew p) as [[]|e];
          [destruct (kickoff p inp c) as [t [r|e]]|]|]|];
      run_simpl H; cbn [snd jobs];
      repeat (apply preserves_update_r; [intros; split; reflexivity|]);
      apply preserves_refl.
  - rewrite (run_crew_job_absent str_R p id inp (mkWorld d c tk u tr) H).
    apply preserves_refl.
Qed.

Lemma lookup_in_keys {V} (d : dict V) (k : string) (v : V) :
  lookup d k = Some v -> In k (map fst d).
Proof.
  induction d as [|[k' v'] d IH]; simpl; [discriminate|].
  destruct (String.eqb k k') eqn:E; [apply String.eqb_eq in E; auto|auto].
Qed.

Lemma dict_del_nodup {V} (k : string) (d : dict V) :
  NoDup (map fst d) -> NoDup (map fst (dict_del k d)).
Proof.
  unfold dict_del. induction d as [|[k' v] d IH]; simpl; intros N; [constructor|].
  inversion N as [|? ? Hn N']; subst.
  destruct (negb (String.eqb k k')); simpl; [|auto].
  constructor; [|auto].
  intros Hin. apply Hn. apply in_map_iff in Hin as [[k2 v2] [E Hx]]. simpl in E; subst k2.
  apply filter_In in Hx as [Hx _]. apply (in_map fst) in Hx. exact Hx.
Qed.

Lemma dict_del_forall (k : string) (d : dict job) :
  Forall (fun kv => job_id (snd kv) = fst kv) d ->
  Forall (fun kv => job_id (snd kv) = fst kv) (dict_del k d).
Proof.
  intros F. unfold dict_del. rewrite Forall_forall in *.
  intros x Hx. apply filter_In in Hx as [Hx _]. exact (F x Hx).
Qed.

Lemma lookup_none_not_in {V} (d : dict V) (k : string) :
  lookup d k = None -> ~ In k (map fst d).
Proof.
  induction d as [|[k' v] d IH]; simpl; [auto|].
  destruct (String.eqb k k') eqn:E; [discriminate|].
  intros H [H'|H']; [subst k'; rewrite String.eqb_refl in E; discriminate|exact (IH H H')].
Qed.

Lemma delete_job_jobs (id : string) (w : world) :
  jobs (snd (delete_job id w)) = jobs w \/ jobs (snd (delete_job id w)) = dict_del id (jobs w).
Proof.
  destruct w as [d c tk u tr].
  cbv beta iota zeta delta [delete_job contains del_item bind ret raise with_jobs jobs snd].
  destruct (lookup d id) eqn:L; simpl; rewrite ?L; simpl; [right|left]; reflexivity.
Qed.

Section Keys.

Variable R : Type.
Variable str_R : R -> string.

(** X1.  In every reachable state the registry holds each identifier at
    most once and every record's [job_id] is the key it is stored under;
    so [GET /crew/jobs] lists each job once, and the [job_id]s it lists are
    pairwise distinct. *)
Theorem registry_keys_unique (w : world) :
  reachable R str_R w ->
  NoDup (map fst (jobs w)) /\
  Forall (fun kv => job_id (snd kv) = fst kv) (jobs w) /\
  (forall l, fst (list_jobs w) = inl l -> NoDup (map job_id l) /\ map job_id l = map fst (jobs w)).
Proof.
  intros Rw.
  assert (K : NoDup (map fst (jobs w)) /\ Forall (fun kv => job_id (snd kv) = fst kv) (jobs w)).
  { induction Rw as [t|w w' Rw IH S]; [split; constructor|].
    destruct IH as [N F].
    pose proof (reachable_inv R str_R w Rw) as I.
    destruct S as [w token inp Hf|w p l1 id inp l2 HT|w id|w id|w|w id|w p|w p inp|w t].
    - rewrite run_crew_eq. simpl. unfold dict_set.
      assert (L : lookup (jobs w) token = None).
      { destruct (lookup (jobs w) token) as [j|] eqn:L; [|reflexivity].
        exfalso. exact (Hf (inv_jobs_used w I token j L)). }
      rewrite L, map_app. split.
      + apply NoDup_app; [exact N|repeat constructor; auto|].
        intros a Ha [<-|[]]. exact (lookup_none_not_in _ _ L Ha).
      + apply Forall_app. split; [exact F|repeat constructor].
    - pose proof (run_crew_job_preserves str_R p id inp (with_tasks (app l1 l2) w)) as P.
      simpl in P. split; [rewrite (preserves_keys _ _ P); exact N|exact (preserves_forall _ _ P F)].
    - rewrite get_job_status_state. split; assumption.
    - rewrite get_job_result_state. split; assumption.
    - split; assumption.
    - destruct (delete_job_jobs id w) as [E|E]; rewrite E;
        [split; assumption|split; [apply dict_del_nodup; exact N|apply dict_del_forall; exact F]].
    - rewrite health_check_state. split; assumption.
    - destruct (run_crew_sync_frame str_R p inp w) as (E & _ & _). rewrite E. split; assumption.
    - split; assumption. }
  destruct K as [N F]. split; [exact N|split; [exact F|]].
  intros l [= <-]. unfold dict_values. rewrite map_map.
  assert (E : map (fun x => job_id (snd x)) (jobs w) = map fst (jobs w)).
  { apply map_ext_in. intros a Ha. rewrite Forall_forall in F. exact (F a Ha). }
  rewrite E. split; [exact N|reflexivity].
Qed.


End Keys.

(** ** Helpers on the result endpoint and the synchronous run *)

Lemma get_job_result_eq (w : world) (id : string) :
  get_job_result id w =
  (match lookup (jobs w) id with
   | None => inr (HTTPException 404 "Job not found")
   | Some j =>
       match status j with
       | Pending | Running => inr (HTTPException 202 "Job still running")
       | Failed => inr (HTTPException 500 ("Job failed: " ++ fmt_opt (error j)))
       | Completed => inl (mkResultBody id "completed" (result j) (completed_at j))
       end
   end, w).
Proof.
  destruct w as [d c tk u tr]. simpl.
  unfold get_job_result, contains, get_item, bind, raise, ret; simpl.
  destruct (lookup d id) as [j|] eqn:L; simpl; rewrite ?L; [|reflexivity].
  destruct (status j); reflexivity.
Qed.

Lemma run_crew_sync_outcome {R} (str_R : R -> string) (p : provider R) (inp : inputs) (w : world) :
  fst (run_crew_sync R str_R p inp w) =
  match crew_load p with
  | inr e => inr (HTTPException 500 ("Crew execution failed: " ++ str_exn e))
  | inl _ =>
      let '(t, o) := kickoff p inp (clock w) in
      match o with
      | inl r => inl (mkSyncBody "completed" (str_R r) t)
      | inr e => inr (HTTPException 500 ("Crew execution failed: " ++ str_exn e))
      end
  end.
Proof.
  destruct w as [d c tk u tr].
  unfold run_crew_sync, crew_load, get_crew_class, load_crew_module, call_crew_class, call_crew,
    call_kickoff, try_except, bind, now, ret, raise, log, with_clock.
  destruct (import_crew p); simpl; [|reflexivity].
  destruct (instantiate p) as [[]|]; simpl; [|reflexivity].
  destruct (build_crew p) as [[]|]; simpl; [|reflexivity].
  destruct (kickoff p inp c) as [t [r|e]]; simpl; reflexivity.
Qed.

Section Composition.

Variable R : Type.
Variable str_R : R -> string.

(** X3.  Submitting a job and then running its background task (the step
    the scheduler takes) makes [GET /crew/result/{id}] answer 200 with
    [str(result)] and the time [kickoff] returned when the crew loads and
    [kickoff] returns, and 500 with "Job failed: " and the exception text
    when loading or [kickoff] raises. *)
Theorem submit_run_then_fetch (w : world) (token : string) (inp : inputs) (p : provider R) :
  reachable R str_R w -> ~ In token (used w) ->
  let w1 := snd (run_crew token inp w) in
  let w2 := snd (run_crew_job R str_R p token inp (with_tasks (tasks w) w1)) in
  step R str_R w1 w2 /\
  get_job_result token w2 =
    (match crew_load p with
     | inr e => inr (HTTPException 500 ("Job failed: " ++ str_exn e))
     | inl _ =>
         let '(t, o) := kickoff p inp (clock w) in
         match o with
         | inl r => inl (mkResultBody token "completed" (Some (str_R r)) (Some t))
         | inr e => inr (HTTPException 500 ("Job failed: " ++ str_exn e))
         end
     end, w2).
Proof.
  intros Rw Hf w1 w2. split.
  - unfold w2. pose proof (step_runner R str_R w1 p (tasks w) token inp [] ) as S.
    rewrite app_nil_r in S. apply S. unfold w1. rewrite run_crew_eq. reflexivity.
  - assert (L : lookup (jobs (with_tasks (tasks w) w1)) token =
                Some (mkJob token Pending (clock w) None None None)).
    { unfold w1. rewrite run_crew_eq. simpl. rewrite lookup_dict_set, String.eqb_refl. reflexivity. }
    destruct (run_crew_job_present str_R p token inp _ _ L) as (w' & Hrun & _ & _ & _ & Hcase).
    assert (Ck : clock (with_tasks (tasks w) w1) = clock w)
      by (unfold w1; rewrite run_crew_eq; reflexivity).
    rewrite Ck in Hcase.
    unfold w2. rewrite Hrun. simpl snd. rewrite get_job_result_eq.
    destruct (crew_load p) as [u|e].
    + destruct (kickoff p inp (clock w)) as [t [r|e]]; destruct Hcase as (_ & _ & H); rewrite H;
        reflexivity.
    + destruct Hcase as (_ & _ & H). rewrite H. reflexivity.
Qed.

(** X4.  [POST /crew/run-sync] and the background runner agree: run from
    the same state on a job that has a record, when the synchronous call
    answers 200 the runner leaves the job Completed with the same result
    string and timestamp; when it answers with an error, the runner leaves
    the job Failed and the 500 detail is "Crew execution failed: "
    followed by the job's error text. *)
Theorem sync_agrees_with_runner (p : provider R) (inp : inputs) (w : world) (id : string) (j : job) :
  lookup (jobs w) id = Some j ->
  let w' := snd (run_crew_job R str_R p id inp w) in
  (forall b, fst (run_crew_sync R str_R p inp w) = inl b ->
     exists j', lookup (jobs w') id = Some j' /\ status j' = Completed /\
                result j' = Some (sy_result b) /\ completed_at j' = Some (sy_timestamp b)) /\
  (forall e, fst (run_crew_sync R str_R p inp w) = inr e ->
     exists j' msg, lookup (jobs w') id = Some j' /\ status j' = Failed /\ error j' = Some msg /\
                    e = HTTPException 500 ("Crew execution failed: " ++ msg)).
Proof.
  intros L w'.
  destruct (run_crew_job_present str_R p id inp w j L) as (w1 & Hrun & _ & _ & _ & Hcase).
  unfold w'. rewrite Hrun. simpl snd. rewrite run_crew_sync_outcome.
  destruct (crew_load p) as [u|e].
  - destruct (kickoff p inp (clock w)) as [t [r|e]]; destruct Hcase as (_ & _ & H); split.
    + intros b [= <-]. eexists; repeat split; eassumption || reflexivity.
    + intros e' H'. discriminate.
    + intros b H'. discriminate.
    + intros e' [= <-]. do 2 eexists; repeat split; eassumption || reflexivity.
  - destruct Hcase as (_ & _ & H). split.
    + intros b H'. discriminate.
    + intros e' [= <-]. do 2 eexists; repeat split; eassumption || reflexivity.
Qed.

End Composition.

Section Reachable.

Variable R : Type.
Variable str_R : R -> string.

(** X5.  In every reachable state each job has at most one scheduled
    background task, and a job with a scheduled task is absent from the
    registry or still Pending: no job's runner runs twice, and the runner
    never starts on a finished job. *)
Theorem scheduled_tasks_unique_pending (w : world) :
  reachable R str_R w ->
  NoDup (map fst (tasks w)) /\
  (forall id inp j, In (id, inp) (tasks w) -> lookup (jobs w) id = Some j -> status j = Pending).
Proof.
  intros Rw. pose proof (reachable_inv R str_R w Rw) as [_ Hp Hn _ _]. split; assumption.
Qed.

(** X6.  Because the runner has no suspension point between its write of
    "running" and its final writes, no reachable state holds a Running
    record: a status query never sees Running, and the result endpoint
    answers 202 only for a Pending job. *)
Theorem running_never_observed (w : world) (id : string) :
  reachable R str_R w ->
  (forall j, lookup (jobs w) id = Some j -> status j <> Running) /\
  (forall j, fst (get_job_status id w) = inl j -> status j <> Running) /\
  (fst (get_job_result id w) = inr (HTTPException 202 "Job still running") ->
     exists j, lookup (jobs w) id = Some j /\ status j = Pending).
Proof.
  intros Rw. pose proof (reachable_inv R str_R w Rw) as [Hj _ _ _ _].
  assert (NR : forall j, lookup (jobs w) id = Some j -> status j <> Running).
  { intros j L. destruct (Hj id j L) as [(H & _)|[(H & _)|(H & _)]]; rewrite H; discriminate. }
  split; [exact NR|split].
  - intros j H. destruct w as [d c tk u tr].
    unfold get_job_status, contains, get_item, bind, raise in H. simpl in H.
    destruct (lookup d id) as [j0|] eqn:L; simpl in H; rewrite ?L in H; [|discriminate].
    injection H as <-. exact (NR j0 L).
  - rewrite get_job_result_eq. simpl.
    destruct (lookup (jobs w) id) as [j|] eqn:L; [|discriminate].
    destruct (status j) eqn:S; try discriminate.
    + intros _. exists j. split; [reflexivity|exact S].
    + exfalso. exact (NR j eq_refl S).
Qed.

(** X7.  In every reachable state a 200 answer of the result endpoint
    carries a non-null [result] and [completed_at], and a 500 answer's
    detail is "Job failed: " followed by the job's actual error text (never
    "None"). *)
Theorem result_endpoint_payloads (w : world) (id : string) :
  reachable R str_R w ->
  (forall b, fst (get_job_result id w) = inl b ->
     rb_status b = "completed" /\ rb_result b <> None /\ rb_completed_at b <> None) /\
  (forall c d, fst (get_job_result id w) = inr (HTTPException c d) -> c = 500%Z ->
     exists j e, lookup (jobs w) id = Some j /\ error j = Some e /\ d = "Job failed: " ++ e).
Proof.
  intros Rw. pose proof (reachable_inv R str_R w Rw) as [Hj _ _ _ _].
  rewrite get_job_result_eq. simpl.
  destruct (lookup (jobs w) id) as [j|] eqn:L;
    [|split; [discriminate|intros c d [= <- _]; discriminate]].
  destruct (Hj id j L) as [(S & Hc & Hr & He)|[(S & Hc & Hr & He)|(S & Hc & Hr & He)]];
    rewrite S; split.
  - discriminate.
  - intros c d [= <- _]; discriminate.
  - intros b [= <-]. simpl. split; [reflexivity|split; assumption].
  - discriminate.
  - discriminate.
  - intros c d [= <- <-] _. destruct (error j) as [e|] eqn:E; [|contradiction].
    exists j, e. split; [reflexivity|split; [exact E|reflexivity]].
Qed.

(** X8.  Deletion is permanent: once a reachable state has no record for
    an identifier that was ever issued (for instance right after
    [DELETE /crew/jobs/{id}]), no later state has one, even when the job's
    background task runs afterwards. *)
Theorem deleted_job_never_reappears (w w' : world) (id : string) :
  reachable R str_R w -> In id (used w) -> lookup (jobs w) id = None ->
  steps R str_R w w' -> lookup (jobs w') id = None.
Proof.
  intros Rw Hu L S. revert Rw Hu L.
  induction S as [w|w w1 w' S1 S IH]; intros Rw Hu L; [exact L|].
  destruct (step_lookup R str_R w w1 id Rw S1) as [C Hused].
  apply IH; [exact (reach_step _ _ w w1 Rw S1)|exact (Hused _ Hu)|].
  destruct C as [C|[C|[(_ & Hf & _)|(j0 & j1 & C & _)]]].
  - rewrite C. exact L.
  - exact C.
  - contradiction.
  - congruence.
Qed.

End Reachable.

(** X9.  The runner never creates a record: run on an identifier that
    has no record it leaves the whole state unchanged and raises
    [KeyError] for that identifier. *)
Theorem runner_on_missing_job_changes_nothing {R} (str_R : R -> string) (p : provider R)
    (id : string) (inp : inputs) (w : world) :
  lookup (jobs w) id = None ->
  snd (run_crew_job R str_R p id inp w) = w /\
  fst (run_crew_job R str_R p id inp w) = inr (KeyError id).
Proof.
  intros L. rewrite (run_crew_job_absent str_R p id inp w L). split; reflexivity.
Qed.

Section Info.

Variable R : Type.

(** X10.  [GET /crew/info] never raises and never changes the state.  When
    the crew loads, instantiates and builds, it answers available with the
    class name, the agents' (role, goal) pairs in order (none when
    [crew.agents] is absent or empty), [tasks_count] the length of
    [crew.tasks] (0 when absent or empty) and the process text ("unknown"
    when absent); otherwise it answers unavailable with the text of the
    exception. *)
Theorem crew_info_total (p : provider R) (c : crew_obj) (w : world) :
  snd (crew_info R p c w) = w /\
  (exists b, fst (crew_info R p c w) = inl b) /\
  match crew_load p with
  | inl _ =>
      exists cls, import_crew p = inl cls /\
        fst (crew_info R p c w) =
          inl (InfoOk cls
                 (map (fun a => (role a, goal a))
                      (match c_agents c with Some l => l | None => [] end))
                 (match c_tasks c with Some l => length l | None => 0 end)
                 (match c_process c with Some s => s | None => "unknown" end))
  | inr e => fst (crew_info R p c w) = inl (InfoErr (str_exn e))
  end.
Proof.
  unfold crew_info, crew_load, get_crew_class, load_crew_module, call_crew_class, call_crew,
    try_except, bind, ret, raise.
  destruct (import_crew p) as [cls|msg]; simpl;
    [|split; [reflexivity|split; [eexists; reflexivity|reflexivity]]].
  destruct (instantiate p) as [[]|e]; simpl;
    [|split; [reflexivity|split; [eexists; reflexivity|reflexivity]]].
  destruct (build_crew p) as [[]|e]; simpl;
    [|split; [reflexivity|split; [eexists; reflexivity|reflexivity]]].
  split; [reflexivity|split; [eexists; reflexivity|]].
  exists cls. split; [reflexivity|].
  destruct (c_agents c) as [[|a l]|], (c_tasks c) as [[|t l']|]; reflexivity.
Qed.

(** X11.  [GET /crew/info] and [GET /health] agree on the crew: when the
    info endpoint answers available, the health endpoint answers healthy
    with the same class name; when the health endpoint answers unhealthy,
    the info endpoint answers unavailable with the same error text. *)
Theorem crew_info_consistent_with_health (p : provider R) (c : crew_obj) (w : world) :
  (forall cls ags n proc, fst (crew_info R p c w) = inl (InfoOk cls ags n proc) ->
     exists b, fst (health_check R p w) = inl b /\ h_status b = "healthy" /\
               crew_loaded b = true /\ h_crew_class b = Some cls) /\
  (forall b, fst (health_check R p w) = inl b -> crew_loaded b = false ->
     exists msg, h_error b = Some msg /\ fst (crew_info R p c w) = inl (InfoErr msg)).
Proof.
  unfold crew_info, health_check, get_crew_class, load_crew_module, call_crew_class, call_crew,
    try_except, bind, ret, raise, now.
  destruct (import_crew p) as [cls|msg]; simpl; split.
  - destruct (instantiate p) as [[]|e]; simpl; [|intros * H; discriminate].
    destruct (build_crew p) as [[]|e]; simpl; [|intros * H; discriminate].
    intros cls' ags n proc [= <- _ _ _]. eexists; repeat split.
  - intros b [= <-]. simpl. discriminate.
  - intros * H; discriminate.
  - intros b [= <-] _. eexists; split; reflexivity.
Qed.

End Info.

Definition crew_obj0 : crew_obj :=
  mkCrewObj (Some [mkAgent "Lead Market Analyst" "Analyse the market"]) (Some ["research"; "write"])
            None.

Example crew_info_fixture :
  fst (crew_info string crew_ok crew_obj0 w0) =
  inl (InfoOk "MarketingPostsCrew" [("Lead Market Analyst", "Analyse the market")] 2 "unknown").
Proof. reflexivity. Qed.

(** ** Witnesses of the further properties *)


Definition w_del_run : world :=
  snd (run_crew_job string py_str crew_ok "job-1" inp0 (with_tasks [] w_del)).

Lemma steps_del_run : steps string py_str w_del w_del_run.
Proof.
  apply (steps_cons _ _ w_del w_del_run w_del_run); [|apply steps_refl].
  exact (step_runner string py_str w_del crew_ok [] "job-1" inp0 [] eq_refl).
Qed.

Lemma registry_keys_unique_witness :
  reachable string py_str w_done /\
  NoDup (map job_id (dict_values (jobs w_done))) /\
  map job_id (dict_values (jobs w_done)) = map fst (jobs w_done).
Proof.
  split; [exact reachable_w_done|].
  destruct (registry_keys_unique string py_str w_done reachable_w_done) as (_ & _ & H).
  exact (H (dict_values (jobs w_done)) eq_refl).
Defined.


Lemma submit_run_then_fetch_witness :
  reachable string py_str w0 /\ ~ In "job-1" (used w0) /\
  get_job_result "job-1"
    (snd (run_crew_job string py_str crew_ok "job-1" inp0
            (with_tasks (tasks w0) (snd (run_crew "job-1" inp0 w0))))) =
  (inl (mkResultBody "job-1" "completed" (Some "posts") (Some "2024-01-01T00:05:00")),
   snd (run_crew_job string py_str crew_ok "job-1" inp0
          (with_tasks (tasks w0) (snd (run_crew "job-1" inp0 w0))))).
Proof.
  assert (R0 : reachable string py_str w0) by apply reach_init.
  assert (F0 : ~ In "job-1" (used w0)) by (simpl; tauto).
  split; [exact R0|split; [exact F0|]].
  exact (proj2 (submit_run_then_fetch string py_str w0 "job-1" inp0 crew_ok R0 F0)).
Defined.

Lemma sync_agrees_with_runner_witness :
  lookup (jobs w_sub) "job-1" = Some job1_pending /\
  exists j', lookup (jobs (snd (run_crew_job string py_str crew_ok "job-1" inp0 w_sub))) "job-1" = Some j' /\
             status j' = Completed /\ result j' = Some "posts" /\
             completed_at j' = Some "2024-01-01T00:05:00".
Proof.
  split; [reflexivity|].
  destruct (sync_agrees_with_runner string py_str crew_ok inp0 w_sub "job-1" job1_pending eq_refl)
    as [H _].
  exact (H (mkSyncBody "completed" "posts" "2024-01-01T00:05:00") eq_refl).
Defined.

Lemma scheduled_tasks_unique_pending_witness :
  reachable string py_str w_sub /\ NoDup (map fst (tasks w_sub)) /\
  (In ("job-1", inp0) (tasks w_sub) -> lookup (jobs w_sub) "job-1" = Some job1_pending ->
   status job1_pending = Pending).
Proof.
  split; [exact reachable_w_sub|].
  destruct (scheduled_tasks_unique_pending string py_str w_sub reachable_w_sub) as [N P].
  split; [exact N|exact (P "job-1" inp0 job1_pending)].
Defined.

Lemma running_never_observed_witness :
  reachable string py_str w_done /\
  status (completed_record job1_pending "posts" "2024-01-01T00:05:00") <> Running.
Proof.
  split; [exact reachable_w_done|].
  exact (proj1 (running_never_observed string py_str w_done "job-1" reachable_w_done)
           (completed_record job1_pending "posts" "2024-01-01T00:05:00") eq_refl).
Defined.

Lemma result_endpoint_payloads_witness :
  reachable string py_str w_done /\
  rb_status (mkResultBody "job-1" "completed" (Some "posts") (Some "2024-01-01T00:05:00")) = "completed" /\
  rb_result (mkResultBody "job-1" "completed" (Some "posts") (Some "2024-01-01T00:05:00")) <> None /\
  rb_completed_at (mkResultBody "job-1" "completed" (Some "posts") (Some "2024-01-01T00:05:00")) <> None.
Proof.
  split; [exact reachable_w_done|].
  exact (proj1 (result_endpoint_payloads string py_str w_done "job-1" reachable_w_done)
           (mkResultBody "job-1" "completed" (Some "posts") (Some "2024-01-01T00:05:00")) eq_refl).
Defined.

Lemma deleted_job_never_reappears_witness :
  reachable string py_str w_del /\ In "job-1" (used w_del) /\ lookup (jobs w_del) "job-1" = None /\
  steps string py_str w_del w_del_run /\ lookup (jobs w_del_run) "job-1" = None.
Proof.
  assert (U : In "job-1" (used w_del)) by (simpl; left; reflexivity).
  split; [exact reachable_w_del|split; [exact U|split; [reflexivity|split; [exact steps_del_run|]]]].
  exact (deleted_job_never_reappears string py_str w_del w_del_run "job-1"
           reachable_w_del U eq_refl steps_del_run).
Defined.

Lemma runner_on_missing_job_changes_nothing_witness :
  lookup (jobs w_del) "job-1" = None /\
  snd (run_crew_job string py_str crew_ok "job-1" inp0 w_del) = w_del /\
  fst (run_crew_job string py_str crew_ok "job-1" inp0 w_del) = inr (KeyError "job-1").
Proof.
  split; [reflexivity|].
  exact (runner_on_missing_job_changes_nothing py_str crew_ok "job-1" inp0 w_del eq_refl).
Defined.

Lemma crew_info_consistent_with_health_witness :
  fst (health_check string crew_missing w0) =
    inl (mkHealthBody "unhealthy" (clock w0) false None
           (Some ("Could not load CrewAI crew module: " ++ "No module named 'marketing_posts'"))) /\
  exists msg, Some ("Could not load CrewAI crew module: " ++ "No module named 'marketing_posts'") = Some msg /\
              fst (crew_info string crew_missing crew_obj0 w0) = inl (InfoErr msg).
Proof.
  split; [reflexivity|].
  exact (proj2 (crew_info_consistent_with_health string crew_missing crew_obj0 w0) _ eq_refl eq_refl).
Defined.
